(** * AIChatbotProject front end: session and authentication glue

    A shallow embedding of the four source files of the React front end

    - [src/components/AuthActions.jsx]   (module [AuthActions])
    - [src/components/Header.jsx], the older variant with plain
      [/logout] and [/unlink] endpoints   (module [LegacyHeader])
    - [src/components/Header.jsx], the session-aware variant built on
      [whoami]                            (module [Header])
    - [src/routes/Router.jsx] and [src/App.js]
                                          (modules [AppRouter], [App])

    together with the properties of the session contract they obey.

    JavaScript values are an inductive type, strings are sequences of
    UTF-16 code units, and the effectful handlers ([async] functions
    with [try]/[catch]/[finally]) live in a small monad of component
    state, exceptions and an append-only log of observable events
    (requests sent, console output, callbacks invoked). *)

From Stdlib Require Import ZArith NArith List String Ascii Bool Lia.
From Stdlib Require Import Floats.SpecFloat.
From stdpp Require Import gmap.
Import ListNotations.

Set Warnings "-register-all".
Set Default Proof Using "Type".

(* ===================================================================== *)
(** * JavaScript values and strings *)
(* ===================================================================== *)

Module JS.

(** A JavaScript string is a sequence of UTF-16 code units. *)
Abbreviation jsstring := (list N).

(** ASCII literals of the source, as code units. *)
Definition lit (s : string) : jsstring :=
  map N_of_ascii (list_ascii_of_string s).

(** Values: what [JSON.parse] can produce, plus [undefined].  Numbers are
    IEEE-754 doubles; objects are finite maps from property names. *)
Inductive value : Type :=
| JUndefined
| JNull
| JBool (b : bool)
| JNum (x : spec_float)
| JStr (s : jsstring)
| JArr (xs : list value)
| JObj (props : gmap jsstring value).

(** [ToBoolean]: [undefined], [null], [false], [0], [-0], [NaN] and the
    empty string are falsy, everything else is truthy. *)
Definition truthy (v : value) : bool :=
  match v with
  | JUndefined | JNull => false
  | JBool b => b
  | JNum (S754_zero _) | JNum S754_nan => false
  | JNum _ => true
  | JStr [] => false
  | JStr _ => true
  | JArr _ | JObj _ => true
  end.

(** [a || b] on values (both operands already evaluated). *)
Definition or_else (a b : value) : value := if truthy a then a else b.

(** What gets thrown: a [TypeError] raised by the runtime, a [SyntaxError]
    from parsing a body, or whatever the network layer rejects with. *)
Inductive exn : Type :=
| TypeError
| SyntaxError
| Rejected (reason : value).

Inductive outcome (A : Type) : Type :=
| Ok (a : A)
| Throw (e : exn).
Arguments Ok {A} a.
Arguments Throw {A} e.

(** Own-property read.  The program only reads the names [ok],
    [logged_in], [email], [nickname], [profile_image] and [id], none of
    which exists on the prototype of a primitive or of an array, so those
    reads give [undefined]. *)
Definition own (v : value) (k : jsstring) : value :=
  match v with
  | JObj props => default JUndefined (props !! k)
  | _ => JUndefined
  end.

(** [v.k]: throws on [null] and [undefined]. *)
Definition member (v : value) (k : jsstring) : outcome value :=
  match v with
  | JUndefined | JNull => Throw TypeError
  | _ => Ok (own v k)
  end.

(** [v?.k]: [undefined] on [null] and [undefined]. *)
Definition opt_member (v : value) (k : jsstring) : value :=
  match v with
  | JUndefined | JNull => JUndefined
  | _ => own v k
  end.

(** ** Strings that may be [undefined]

    [process.env.REACT_APP_API_BASE] is a string or [undefined]; these
    are [a && f(a)] and [a || d] at that type. *)
Definition and_then (a : option jsstring) (f : jsstring -> jsstring) : option jsstring :=
  match a with
  | Some ((_ :: _) as s) => Some (f s)
  | falsy => falsy
  end.

Definition or_default (a : option jsstring) (d : jsstring) : jsstring :=
  match a with
  | Some ((_ :: _) as s) => s
  | _ => d
  end.

(** ** String methods used by the source *)

Definition slash : N := 47.

(** [s.replace(/\/+$/, "")]: the only match of the pattern is the maximal
    run of slashes that ends the string, and it is replaced by nothing. *)
Fixpoint strip_trailing_slashes (s : jsstring) : jsstring :=
  match s with
  | [] => []
  | c :: r =>
      match strip_trailing_slashes r with
      | [] => if N.eqb c slash then [] else [c]
      | r' => c :: r'
      end
  end.

(** [s.endsWith(suffix)]. *)
Fixpoint endsWith (s suffix : jsstring) : bool :=
  if bool_decide (s = suffix) then true
  else match s with
       | [] => false
       | _ :: r => endsWith r suffix
       end.

(** Code units removed by [trim]: WhiteSpace and LineTerminator of the
    language specification. *)
Definition is_white_space (c : N) : bool :=
  match c with
  | 9 | 10 | 11 | 12 | 13 | 32 | 160 | 5760
  | 8192 | 8193 | 8194 | 8195 | 8196 | 8197 | 8198 | 8199 | 8200 | 8201 | 8202
  | 8232 | 8233 | 8239 | 8287 | 12288 | 65279 => true
  | _ => false
  end%N.

Fixpoint trim_start (s : jsstring) : jsstring :=
  match s with
  | [] => []
  | c :: r => if is_white_space c then trim_start r else s
  end.

Fixpoint trim_end (s : jsstring) : jsstring :=
  match s with
  | [] => []
  | c :: r =>
      match trim_end r with
      | [] => if is_white_space c then [] else [c]
      | r' => c :: r'
      end
  end.

(** [s.trim()]. *)
Definition trim (s : jsstring) : jsstring := trim_end (trim_start s).

(** [s.charAt(0)]: the first code unit, or the empty string. *)
Definition charAt0 (s : jsstring) : jsstring :=
  match s with
  | [] => []
  | c :: _ => [c]
  end.

End JS.
Import JS.

(* ===================================================================== *)
(** * The browser as seen by the components *)
(* ===================================================================== *)

Module Browser.

(** The second argument of [fetch]; a field left out of the object
    literal is [None]. *)
Record fetch_init : Type := mkInit {
  method : option jsstring;
  credentials : option jsstring;
}.

Record request : Type := mkRequest {
  url : jsstring;
  init : fetch_init;
}.

(** A response: its status line and what [res.json()] settles to
    ([None] when the body is not JSON and the promise rejects). *)
Record response : Type := mkResponse {
  status : N;
  body : option value;
}.

(** [res.ok]: the status is in the range 200-299. *)
Definition res_ok (r : response) : bool :=
  (200 <=? status r)%N && (status r <=? 299)%N.

(** How the promise returned by [fetch] settles. *)
Inductive fetch_result : Type :=
| Rejects (e : exn)
| Resolves (r : response).

(** The network, as far as one handler run can tell. *)
Definition network : Type := request -> fetch_result.

(** A callback received as a prop is opaque to the component calling it:
    the call returns or it throws. *)
Inductive callback : Type :=
| Returns
| Throws (e : exn).

(** Observable actions, in the order they happen. *)
Inductive event : Type :=
| EvFetch (req : request)
| EvConsoleError (args : list value) (err : exn)
| EvCall (prop : string).

(** ** Handlers: component state, exceptions, event log

    A computation over component state [St] returns its outcome, the new
    state and the events it produced; sequencing appends the logs, so no
    step can take back what an earlier one did. *)
Definition M (St A : Type) : Type := St -> outcome A * St * list event.

Definition ret {St A} (a : A) : M St A := fun s => (Ok a, s, []).

Definition throw {St A} (e : exn) : M St A := fun s => (Throw e, s, []).

Definition bind {St A B} (m : M St A) (k : A -> M St B) : M St B :=
  fun s =>
    match m s with
    | (Ok a, s1, evs1) =>
        match k a s1 with
        | (o, s2, evs2) => (o, s2, evs1 ++ evs2)
        end
    | (Throw e, s1, evs1) => (Throw e, s1, evs1)
    end.

Definition emit {St} (ev : event) : M St unit := fun s => (Ok tt, s, [ev]).

Definition modify {St} (f : St -> St) : M St unit := fun s => (Ok tt, f s, []).

Definition lift {St A} (o : outcome A) : M St A := fun s => (o, s, []).

(** [try { body } catch (e) { handler e }]. *)
Definition try_catch {St A} (body : M St A) (handler : exn -> M St A) : M St A :=
  fun s =>
    match body s with
    | (Ok a, s1, evs1) => (Ok a, s1, evs1)
    | (Throw e, s1, evs1) =>
        match handler e s1 with
        | (o, s2, evs2) => (o, s2, evs1 ++ evs2)
        end
    end.

(** [try { body } finally { fin }]: [fin] runs however [body] completes
    (normally, by [return] or by a throw) and the completion of [body]
    stands unless [fin] itself throws. *)
Definition try_finally {St A} (body : M St A) (fin : M St unit) : M St A :=
  fun s =>
    match body s with
    | (o, s1, evs1) =>
        match fin s1 with
        | (Ok _, s2, evs2) => (o, s2, evs1 ++ evs2)
        | (Throw e, s2, evs2) => (Throw e, s2, evs1 ++ evs2)
        end
    end.

Declare Scope js_scope.
Delimit Scope js_scope with js.
Notation "'let*' x ':=' c1 'in' c2" := (bind c1 (fun x => c2))
  (at level 10, x name, c1 at level 100, c2 at level 200) : js_scope.
Notation "c1 ;; c2" := (bind c1 (fun _ => c2))
  (at level 100, c2 at level 200, right associativity) : js_scope.
Open Scope js_scope.

(** [await fetch(url, init)]. *)
Definition fetch {St} (net : network) (u : jsstring) (i : fetch_init) : M St response :=
  let req := mkRequest u i in
  emit (EvFetch req) ;;
  match net req with
  | Rejects e => throw e
  | Resolves r => ret r
  end.

(** [await res.json()]. *)
Definition json {St} (r : response) : M St value :=
  match body r with
  | Some v => ret v
  | None => throw SyntaxError
  end.

(** [console.error(args..., err)]. *)
Definition console_error {St} (args : list value) (err : exn) : M St unit :=
  emit (EvConsoleError args err).

(** [cb && cb()] for a callback prop named [prop]. *)
Definition call_if_given {St} (prop : string) (cb : option callback) : M St unit :=
  match cb with
  | None => ret tt
  | Some Returns => emit (EvCall prop)
  | Some (Throws e) => emit (EvCall prop) ;; throw e
  end.

(** Projections of a finished run. *)
Definition result {St A} (r : outcome A * St * list event) : outcome A := fst (fst r).
Definition final {St A} (r : outcome A * St * list event) : St := snd (fst r).
Definition events {St A} (r : outcome A * St * list event) : list event := snd r.

(** The requests sent during a run, and the callback props invoked. *)
Definition requests (evs : list event) : list request :=
  omap (fun ev => match ev with EvFetch req => Some req | _ => None end) evs.

Definition calls (evs : list event) : list string :=
  omap (fun ev => match ev with EvCall p => Some p | _ => None end) evs.

Definition logged (evs : list event) : list (list value * exn) :=
  omap (fun ev => match ev with EvConsoleError a e => Some (a, e) | _ => None end) evs.

Definition GET : jsstring := lit "GET".
Definition POST : jsstring := lit "POST".
Definition include : jsstring := lit "include".

End Browser.
Import Browser.

(* ===================================================================== *)
(** * src/components/AuthActions.jsx *)
(* ===================================================================== *)

Module AuthActions.

Definition onrender : jsstring := lit "https://aichatbotproject.onrender.com".

(** A rendered [<button>]: its text and its [onClick]. *)
Record button : Type := Button {
  label : jsstring;
  onClick : M unit unit;
}.

(** The button texts, "로그아웃" and "연결해제". *)
Definition logout_label : jsstring := [47196; 44536; 50500; 50883]%N.
Definition unlink_label : jsstring := [50672; 44208; 54644; 51228]%N.

Section Component.
(** [process.env.REACT_APP_API_BASE], the network, and the props. *)
Variable env : option jsstring.
Variable net : network.
Variables onLogout onUnlink onDone : option callback.

Definition API_BASE : jsstring :=
  or_default (and_then env strip_trailing_slashes) onrender.

(** [call(path, method)]: the request, [res.ok] or [false], and [onDone]
    in the [finally] block. *)
Definition call (path method : jsstring) : M unit bool :=
  try_finally
    (try_catch
       (let* res := fetch net (API_BASE ++ path)
                      (mkInit (Some method) (Some include)) in
        ret (res_ok res))
       (fun e => console_error [JStr path] e ;; ret false))
    (call_if_given "onDone" onDone).

Definition handleLogout : M unit unit :=
  call (lit "/auth/kakao/logout") POST ;;
  call_if_given "onLogout" onLogout.

Definition handleUnlink : M unit unit :=
  call (lit "/auth/kakao/unlink") POST ;;
  call_if_given "onUnlink" onUnlink.

(** The request [handleLogout] is expected to send. *)
Definition logout_request : request :=
  mkRequest (API_BASE ++ lit "/auth/kakao/logout")
            (mkInit (Some POST) (Some include)).


(** What the component returns: [null] when [loggedIn] is falsy, else
    the two buttons. *)
Definition render (loggedIn : value) : option (list button) :=
  if negb (truthy loggedIn) then None
  else Some [ Button logout_label handleLogout;
              Button unlink_label handleUnlink ].
End Component.

End AuthActions.

(* ===================================================================== *)
(** * src/components/Header.jsx, session-aware variant *)
(* ===================================================================== *)

Module Header.

Definition onrender : jsstring := lit "https://aichatbotproject.onrender.com".

Record UserInfo : Type := mkUserInfo {
  email : value;
  nickname : value;
  profile_image : value;
  id : value;
}.

(** The text of the console message, "사용자 정보 가져오기 실패:". *)
Definition fetch_failed_message : jsstring :=
  [49324; 50857; 51088; 32; 51221; 48372; 32; 44032; 51256; 50724; 44592;
   32; 49892; 54056; 58]%N.

Section Component.
Variable env : option jsstring.
Variable net : network.

Definition API_BASE : jsstring :=
  or_default (and_then env strip_trailing_slashes) onrender.

Definition whoamiUrl : jsstring := API_BASE ++ lit "/auth/kakao/whoami".

Definition whoami_request : request :=
  mkRequest whoamiUrl (mkInit None (Some include)).

(** The component state is [userInfo]; [null] is [None]. *)
Definition setUserInfo (u : option UserInfo) : M (option UserInfo) unit :=
  modify (fun _ => u).

Definition fetchUserInfo : M (option UserInfo) unit :=
  try_catch
    (let* res := fetch net whoamiUrl (mkInit None (Some include)) in
     if negb (res_ok res) then setUserInfo None
     else
       let* data := json res in
       if truthy (opt_member data (lit "logged_in")) then
         let* data_email := lift (member data (lit "email")) in
         let* data_nickname := lift (member data (lit "nickname")) in
         let* data_profile_image := lift (member data (lit "profile_image")) in
         let* data_id := lift (member data (lit "id")) in
         setUserInfo (Some {|
           email := or_else data_email (JStr []);
           nickname := or_else data_nickname (JStr []);
           profile_image := or_else data_profile_image (JStr []);
           id := data_id;
         |})
       else setUserInfo None)
    (fun err => console_error [JStr fetch_failed_message] err ;; setUserInfo None).
End Component.

(** [(userInfo?.nickname && userInfo.nickname.trim().charAt(0)) || "U"].
    A truthy nickname that is not a string has no [trim] method and the
    call throws. *)
Definition initialChar (userInfo : option UserInfo) : outcome value :=
  let nick := match userInfo with
              | Some u => nickname u
              | None => JUndefined
              end in
  if truthy nick then
    match nick with
    | JStr s => Ok (or_else (JStr (charAt0 (trim s))) (JStr (lit "U")))
    | _ => Throw TypeError
    end
  else Ok (JStr (lit "U")).

(** The effect on mount and on every path change, the focus listener
    and the three callbacks given to [AuthActions] all run
    [fetchUserInfo].  A run reads nothing of the state and writes it
    once, when its fetch has settled, so a series of triggers acts on the
    state as the runs taken one after the other in the order their
    fetches settle; [nets] gives what the network answers to each. *)
Fixpoint refetch_all (env : option jsstring) (nets : list network)
    : M (option UserInfo) unit :=
  match nets with
  | [] => ret tt
  | net :: rest => fetchUserInfo env net ;; refetch_all env rest
  end.

(** The text shown for a user without email, "이메일 없음". *)
Definition no_email : jsstring := [51060; 47700; 51068; 32; 50630; 51020]%N.

(** The round picture: the profile image, or the initial on a disc. *)
Inductive avatar : Type :=
| Img (src : value)
| Initial (c : value).

(** The profile block: the [title] of the block, the avatar, and the
    [title] and text of the email [<span>]. *)
Record profile : Type := mkProfile {
  title : value;
  picture : avatar;
  email_title : value;
  email_text : value;
}.

(** What [Header] returns, styles apart: whether the FAQ button is there,
    the profile block, and what the mounted [AuthActions] renders. *)
Record view : Type := mkView {
  faq : bool;
  profile_block : option profile;
  actions : option (list AuthActions.button);
}.

Section Render.
(** The environment, the network and [location?.pathname]. *)
Variable env : option jsstring.
Variable net : network.
Variable location_pathname : option jsstring.

(** [location?.pathname || "/"]. *)
Definition pathname : jsstring := or_default location_pathname (lit "/").

Definition isChatPage : bool := bool_decide (pathname = lit "/chat").

(** [<AuthActions loggedIn={!!userInfo} onLogout={fetchUserInfo}
    onUnlink={fetchUserInfo} onDone={fetchUserInfo} />]: calling the
    [async] function [fetchUserInfo] hands back a promise and never
    throws. *)
Definition mount_AuthActions (userInfo : option UserInfo)
    : option (list AuthActions.button) :=
  AuthActions.render env net (Some Returns) (Some Returns) (Some Returns)
    (JBool (bool_decide (is_Some userInfo))).

(** [initialChar] is computed before anything is returned, so a throw
    there is a throw of the render. *)
Definition render (userInfo : option UserInfo) : outcome view :=
  match initialChar userInfo with
  | Throw e => Throw e
  | Ok c =>
      Ok match userInfo with
         | None => mkView isChatPage None None
         | Some u =>
             mkView isChatPage
               (Some {|
                  title := or_else (nickname u) (email u);
                  picture := if truthy (profile_image u)
                             then Img (profile_image u)
                             else Initial c;
                  email_title := or_else (email u) (JStr []);
                  email_text := or_else (email u) (JStr no_email);
                |})
               (mount_AuthActions userInfo)
         end
  end.
End Render.


End Header.

(* ===================================================================== *)
(** * src/components/Header.jsx, older variant *)
(* ===================================================================== *)

Module LegacyHeader.

Definition onrender : jsstring := lit "https://aichatbotproject.onrender.com".

(** What the handlers touch: [window.localStorage] and the router's
    current entry with the entries below it. *)
Record page : Type := mkPage {
  localStorage : gmap jsstring jsstring;
  location : jsstring;
  history : list jsstring;
}.

(** [window.localStorage.clear()]. *)
Definition clear : M page unit :=
  modify (fun p => mkPage ∅ (location p) (history p)).

(** [navigate(to, { replace })]: a replacing navigation overwrites the
    current entry, a plain one pushes it. *)
Definition navigate (to : jsstring) (replace : bool) : M page unit :=
  modify (fun p =>
    mkPage (localStorage p) to
           (if replace then history p else location p :: history p)).

Section Component.
Variable env : option jsstring.
Variable net : network.

Definition API_BASE : jsstring := or_default env onrender.

Definition handleLogout : M page unit :=
  try_finally
    (try_catch
       (fetch net (API_BASE ++ lit "/logout") (mkInit (Some GET) (Some include)) ;;
        ret tt)
       (fun e => console_error [] e))
    (clear ;; navigate (lit "/") true).

Definition handleUnlink : M page unit :=
  try_finally
    (try_catch
       (fetch net (API_BASE ++ lit "/unlink") (mkInit (Some GET) (Some include)) ;;
        ret tt)
       (fun e => console_error [] e))
    (clear ;; navigate (lit "/") true).
End Component.

End LegacyHeader.

(* ===================================================================== *)
(** * Route tables (react-router) *)
(* ===================================================================== *)

Module Routing.

(** The elements the two tables mount.  [H] is the type of the handler
    passed to [LoginPage] as [onLogin]. *)
Inductive element (H : Type) : Type :=
| LoginPage (onLogin : option H)
| HomePage
| ChatBotPage
| PatientInfoPage
| FeedbackPage
| Navigate (to : jsstring) (replace : bool).
Arguments LoginPage {H} onLogin.
Arguments HomePage {H}.
Arguments ChatBotPage {H}.
Arguments PatientInfoPage {H}.
Arguments FeedbackPage {H}.
Arguments Navigate {H} to replace.

(** [<Route path=... element=... />]. *)
Record route (H : Type) : Type := Route {
  path : jsstring;
  element_of : element H;
}.
Arguments Route {H} path element_of.
Arguments path {H} r.
Arguments element_of {H} r.

Definition is_splat (pattern : jsstring) : bool := bool_decide (pattern = lit "*").

Section Resolve.
Context {H : Type}.
(** How the router decides that a pattern other than [*] matches a
    location (relative to the basename). *)
Variable matches : jsstring -> jsstring -> bool.

(** The listed (non-wildcard) route that matches, if any. *)
Definition listed_match (rs : list (route H)) (loc : jsstring) : option (route H) :=
  find (fun r => negb (is_splat (path r)) && matches (path r) loc) rs.

(** [<Routes>]: the wildcard ranks below every other pattern, so its
    element is mounted exactly when no listed route matches. *)
Definition resolve (rs : list (route H)) (loc : jsstring) : option (element H) :=
  match listed_match rs loc with
  | Some r => Some (element_of r)
  | None => element_of <$> find (fun r => is_splat (path r)) rs
  end.

(** A mounted [<Navigate to=... />] moves the router to [to], and the
    table is resolved again there: what is on screen after that hop. *)
Definition resolve_after_redirect (rs : list (route H)) (loc : jsstring)
    : option (element H) :=
  match resolve rs loc with
  | Some (Navigate to _) => resolve rs to
  | shown => shown
  end.
End Resolve.

(** An element that shows something, as opposed to a redirect. *)
Definition is_page {H} (e : element H) : bool :=
  match e with
  | Navigate _ _ => false
  | _ => true
  end.

Definition is_login_page {H} (e : element H) : bool :=
  match e with
  | LoginPage _ => true
  | _ => false
  end.

(** A plain matcher for the patterns of the two tables, used at sample
    locations: segment by segment, empty segments dropped, a [:name]
    segment standing for any single segment. *)
Definition colon : N := 58.

Fixpoint segments_from (cur : jsstring) (s : jsstring) : list jsstring :=
  match s with
  | [] => match cur with [] => [] | _ => [rev cur] end
  | c :: r =>
      if N.eqb c slash
      then match cur with
           | [] => segments_from [] r
           | _ => rev cur :: segments_from [] r
           end
      else segments_from (c :: cur) r
  end.

Definition segments (s : jsstring) : list jsstring := segments_from [] s.

Definition segment_matches (pat seg : jsstring) : bool :=
  match pat with
  | c :: _ :: _ => if N.eqb c colon then true else bool_decide (pat = seg)
  | _ => bool_decide (pat = seg)
  end.

Fixpoint all_match (pats segs : list jsstring) : bool :=
  match pats, segs with
  | [], [] => true
  | p :: pats', s :: segs' => segment_matches p s && all_match pats' segs'
  | _, _ => false
  end.

Definition match_segments (pattern loc : jsstring) : bool :=
  all_match (segments pattern) (segments loc).

End Routing.
Import Routing.

(* ===================================================================== *)
(** * src/routes/Router.jsx *)
(* ===================================================================== *)

Module AppRouter.

(** The table inside [<HashRouter><Routes>]. *)
Definition routes {H : Type} : list (route H) :=
  [ Route (lit "/") (LoginPage None);
    Route (lit "/home") HomePage;
    Route (lit "/chat") ChatBotPage;
    Route (lit "/patient-info") PatientInfoPage;
    Route (lit "/feedback") FeedbackPage;
    Route (lit "*") (LoginPage None) ].

End AppRouter.

(* ===================================================================== *)
(** * src/App.js *)
(* ===================================================================== *)

Module App.

Definition onrender : jsstring := lit "https://aichatbotproject.onrender.com".
Definition localhost : jsstring := lit "http://localhost:8000".

(** [useState(false)] twice. *)
Record state : Type := mkState {
  authChecked : bool;
  isLoggedIn : bool;
}.

Definition initial : state := mkState false false.

Definition setAuthChecked (b : bool) : M state unit :=
  modify (fun s => mkState b (isLoggedIn s)).

Definition setIsLoggedIn (b : bool) : M state unit :=
  modify (fun s => mkState (authChecked s) b).

Section Component.
(** [process.env.REACT_APP_API_BASE]; [window.location.hostname], or
    [None] where [window] is not defined; the network. *)
Variable env : option jsstring.
Variable hostname : option jsstring.
Variable net : network.

Definition API_BASE : jsstring :=
  strip_trailing_slashes
    (or_default env
       (if match hostname with
           | Some h => endsWith h (lit "github.io")
           | None => false
           end
        then onrender
        else localhost)).

Definition session_request : request :=
  mkRequest (API_BASE ++ lit "/auth/session") (mkInit None (Some include)).

(** The effect run once after the first render. *)
Definition checkSession : M state unit :=
  try_finally
    (try_catch
       (let* res := fetch net (API_BASE ++ lit "/auth/session")
                      (mkInit None (Some include)) in
        let* data := try_catch (json res) (fun _ => ret (JObj ∅)) in
        setIsLoggedIn (truthy (opt_member data (lit "ok"))))
       (fun _ => setIsLoggedIn false))
    (setAuthChecked true).
End Component.

(** ** The startup effect, turn by turn

    An [async] function runs in turns: an [await] ends the turn, and
    the function goes on when the awaited promise has settled.  In
    between, the component is in the state the turns so far have left,
    and that is the state a render sees. *)
Section Turns.
Variables env hostname : option jsstring.





End Turns.

(** [onLogin={() => setIsLoggedIn(true)}]. *)
Definition onLogin : M state unit := setIsLoggedIn true.

(** The two route sets. *)
Definition anonymous_routes : list (route (M state unit)) :=
  [ Route (lit "/") (LoginPage (Some onLogin));
    Route (lit "*") (Navigate (lit "/") true) ].

Definition authenticated_routes : list (route (M state unit)) :=
  [ Route (lit "/") HomePage;
    Route (lit "/home") HomePage;
    Route (lit "/chat") ChatBotPage;
    Route (lit "/patient") (Navigate (lit "/patient/25-0000032") true);
    Route (lit "/patient/:patientId") PatientInfoPage;
    Route (lit "/feedback") FeedbackPage;
    Route (lit "*") (Navigate (lit "/") true) ].

(** What [App] returns: the placeholder, or a router with its table. *)
Inductive view : Type :=
| Loading
| RouterView (basename : jsstring) (rs : list (route (M state unit))).

Definition render (s : state) : view :=
  if negb (authChecked s) then Loading
  else RouterView (lit "/AIChatbotProject")
         (if negb (isLoggedIn s) then anonymous_routes else authenticated_routes).


End App.

(* ===================================================================== *)
(** * Vocabulary of the session contract *)
(* ===================================================================== *)

Module Contract.

(** A base URL that would put a double slash in front of every path. *)
Definition ends_with_slash (s : jsstring) : Prop := last s = Some slash.

(** A code unit that [trim] keeps. *)
Definition usable (c : N) : bool := negb (is_white_space c).

(** The first usable character of a nickname, if it has one. *)
Definition first_usable (nick : value) : option N :=
  match nick with
  | JStr s => find usable s
  | _ => None
  end.

(** A value that is a string whenever it is truthy: text, or one of
    [null], [undefined], [false], [0], [NaN]. *)
Definition text_or_falsy (v : value) : Prop :=
  truthy v = true -> exists s, v = JStr s.

(** "Every authenticated [UserInfo] has an initial": the first usable
    character of its nickname, or the placeholder. *)
Definition every_user_has_an_initial : Prop :=
  forall u : Header.UserInfo,
    Header.initialChar (Some u) =
      Ok (JStr match first_usable (Header.nickname u) with
               | Some c => [c]
               | None => lit "U"
               end).

(** The ways a [whoami] fetch ends without a session: the call throws, the
    status is not 2xx, the body is not JSON, or [logged_in] is falsy. *)
Definition whoami_anonymous (fr : fetch_result) : Prop :=
  (exists e, fr = Rejects e) \/
  (exists r, fr = Resolves r /\ res_ok r = false) \/
  (exists r, fr = Resolves r /\ body r = None) \/
  (exists r data, fr = Resolves r /\ body r = Some data /\
                  truthy (opt_member data (lit "logged_in")) = false).

(** A successful [whoami] response whose body [data] says [logged_in]. *)
Definition whoami_logged_in (fr : fetch_result) (data : value) : Prop :=
  exists r, fr = Resolves r /\ res_ok r = true /\ body r = Some data /\
            truthy (opt_member data (lit "logged_in")) = true.

(** The [UserInfo] holds what the body returned: [id] as it is, and each
    of the other fields wherever the body has a usable value for it. *)
Definition carries (data : value) (u : Header.UserInfo) : Prop :=
  Header.id u = own data (lit "id") /\
  (truthy (own data (lit "email")) = true ->
     Header.email u = own data (lit "email")) /\
  (truthy (own data (lit "nickname")) = true ->
     Header.nickname u = own data (lit "nickname")) /\
  (truthy (own data (lit "profile_image")) = true ->
     Header.profile_image u = own data (lit "profile_image")).

(** A [/auth/session] response that is a 2xx success with a truthy [ok]. *)
Definition session_success (fr : fetch_result) : Prop :=
  exists r data, fr = Resolves r /\ res_ok r = true /\ body r = Some data /\
                 truthy (opt_member data (lit "ok")) = true.

(** A [/auth/session] response whose body has a truthy [ok], whatever
    its status. *)
Definition session_body_ok (fr : fetch_result) : bool :=
  match fr with
  | Rejects _ => false
  | Resolves r =>
      match body r with
      | Some data => truthy (opt_member data (lit "ok"))
      | None => false
      end
  end.

(** No listed route of the table matches the location. *)
Definition unmatched {H} (matches : jsstring -> jsstring -> bool)
    (rs : list (route H)) (loc : jsstring) : Prop :=
  listed_match matches rs loc = None.

(** The mounted element is [<Navigate to=target replace />]. *)
Definition redirects_to {H} (e : option (element H)) (target : jsstring) : Prop :=
  e = Some (Navigate target true).

(** "Every missing profile field of the resulting [UserInfo] has a
    default": the reading under which [id] is defaulted too. *)
Definition every_missing_field_defaulted : Prop :=
  forall env net prior data u,
    whoami_logged_in (net (Header.whoami_request env)) data ->
    final (Header.fetchUserInfo env net prior) = Some u ->
    (own data (lit "email") = JUndefined -> Header.email u <> JUndefined) /\
    (own data (lit "nickname") = JUndefined -> Header.nickname u <> JUndefined) /\
    (own data (lit "profile_image") = JUndefined -> Header.profile_image u <> JUndefined) /\
    (own data (lit "id") = JUndefined -> Header.id u <> JUndefined).

(** "Logged in only on a 2xx success with a truthy [ok]". *)
Definition logged_in_only_on_success : Prop :=
  forall env hostname net prior,
    App.isLoggedIn (final (App.checkSession env hostname net prior)) = true ->
    session_success (net (App.session_request env hostname)).

(** "The wildcard redirects to [/] in all three tables". *)
Definition wildcard_redirects_everywhere : Prop :=
  forall (matches : jsstring -> jsstring -> bool) (loc : jsstring),
    (unmatched matches App.anonymous_routes loc ->
     redirects_to (resolve matches App.anonymous_routes loc) (lit "/")) /\
    (unmatched matches App.authenticated_routes loc ->
     redirects_to (resolve matches App.authenticated_routes loc) (lit "/")) /\
    (unmatched matches (@AppRouter.routes unit) loc ->
     redirects_to (resolve matches (@AppRouter.routes unit) loc) (lit "/")).

(** Sample inputs. *)
Definition session_body (ok : bool) : value := JObj {[ lit "ok" := JBool ok ]}.

Definition bare_login : value := JObj {[ lit "logged_in" := JBool true ]}.

Definition full_login : value :=
  JObj (<[ lit "logged_in" := JBool true ]>
       (<[ lit "email" := JStr (lit "kim@example.com") ]>
       (<[ lit "nickname" := JStr (lit " Kim") ]>
       (<[ lit "id" := JNum (S754_finite false 7 0) ]> ∅)))).

(** A login whose nickname is the number 5. *)
Definition numeric_nickname_login : value :=
  JObj (<[ lit "logged_in" := JBool true ]>
       (<[ lit "nickname" := JNum (S754_finite false 5 0) ]> ∅)).

Definition always (fr : fetch_result) : network := fun _ => fr.

(** What a run of [fetchUserInfo] leaves in the state, read off the
    answer alone. *)
Definition whoami_verdict (fr : fetch_result) : option Header.UserInfo :=
  match fr with
  | Rejects _ => None
  | Resolves r =>
      if res_ok r then
        match body r with
        | Some data =>
            if truthy (opt_member data (lit "logged_in")) then
              Some {| Header.email := or_else (own data (lit "email")) (JStr []);
                      Header.nickname := or_else (own data (lit "nickname")) (JStr []);
                      Header.profile_image :=
                        or_else (own data (lit "profile_image")) (JStr []);
                      Header.id := own data (lit "id") |}
            else None
        | None => None
        end
      else None
  end.

(** A profile field that is safe to show: a usable value, or the empty
    string; never [null] or [undefined]. *)
Definition usable_or_empty (v : value) : Prop :=
  truthy v = true \/ v = JStr [].

(** The matcher tells the redirect targets of App's tables apart the way
    exact matching does: [/] is the pattern [/], and the default patient
    page is the pattern [/patient/:patientId] and none of the patterns
    listed before it. *)
Definition separates_redirect_targets (matches : jsstring -> jsstring -> bool) : Prop :=
  matches (lit "/") (lit "/") = true /\
  matches (lit "/patient/:patientId") (lit "/patient/25-0000032") = true /\
  (forall pattern,
     pattern ∈ [lit "/"; lit "/home"; lit "/chat"; lit "/patient"] ->
     matches pattern (lit "/patient/25-0000032") = false).

Definition offline : network := always (Rejects (Rejected (JStr (lit "Failed to fetch")))).

End Contract.
Import Contract.

(* ===================================================================== *)
(** * Strings *)
(* ===================================================================== *)

Section StringFacts.

Lemma strip_trailing_slashes_cons c r :
  strip_trailing_slashes (c :: r) =
    match strip_trailing_slashes r with
    | [] => if N.eqb c slash then [] else [c]
    | r' => c :: r'
    end.
Proof. reflexivity. Qed.

(** The stripped string never ends in a slash. *)
Lemma strip_trailing_slashes_clean s :
  ~ ends_with_slash (strip_trailing_slashes s).
Proof.
  unfold ends_with_slash.
  induction s as [|c r IH]; [discriminate|].
  rewrite strip_trailing_slashes_cons.
  destruct (strip_trailing_slashes r) as [|d r'] eqn:E.
  - destruct (N.eqb_spec c slash) as [->|Hc]; simpl; congruence.
  - rewrite last_cons. destruct (last (d :: r')) eqn:L; [exact IH|].
    apply last_None in L. discriminate.
Qed.

(** Only slashes at the end were removed. *)
Lemma strip_trailing_slashes_suffix s :
  exists n, s = strip_trailing_slashes s ++ replicate n slash.
Proof.
  induction s as [|c r [n IH]]; [by exists 0|].
  rewrite strip_trailing_slashes_cons.
  destruct (strip_trailing_slashes r) as [|d r'] eqn:E.
  - destruct (N.eqb_spec c slash) as [->|Hc].
    + exists (S n). simpl in *. by rewrite IH at 1.
    + exists n. simpl in *. by rewrite IH at 1.
  - exists n. simpl in *. by rewrite IH at 1.
Qed.

(** A string without a trailing slash is left alone. *)
Lemma strip_trailing_slashes_fixed s :
  ~ ends_with_slash s -> strip_trailing_slashes s = s.
Proof.
  unfold ends_with_slash.
  induction s as [|c r IH]; [done|]. intros Hl.
  rewrite strip_trailing_slashes_cons.
  destruct r as [|d r'].
  - simpl in *. destruct (N.eqb_spec c slash) as [->|Hc]; congruence.
  - rewrite IH; [done|]. by rewrite last_cons_cons in Hl.
Qed.

Lemma trim_end_cons_usable c r :
  usable c = true -> exists r', trim_end (c :: r) = c :: r'.
Proof.
  unfold usable. intros Hc. simpl.
  destruct (trim_end r) as [|d r'].
  - destruct (is_white_space c); [discriminate|]. by exists [].
  - by exists (d :: r').
Qed.

(** The first character after [trim] is the first usable one. *)
Lemma charAt0_trim s :
  charAt0 (trim s) = match find usable s with Some c => [c] | None => [] end.
Proof.
  unfold trim.
  induction s as [|c r IH]; [done|].
  cbn [trim_start find]. unfold usable at 1.
  destruct (is_white_space c) eqn:W; cbn [negb]; [exact IH|].
  destruct (trim_end_cons_usable c r) as [r' ->]; [|done].
  unfold usable. by rewrite W.
Qed.

(** Nothing usable is left exactly when every character is white space. *)
Lemma find_usable_None s :
  find usable s = None <-> Forall (fun c => is_white_space c = true) s.
Proof.
  induction s as [|c r IH]; [by split; [constructor|]|].
  cbn [find]. unfold usable at 1.
  destruct (is_white_space c) eqn:W; cbn [negb].
  - rewrite IH. split; [by constructor|]. by inversion 1.
  - split; [discriminate|]. inversion 1; congruence.
Qed.

End StringFacts.

(* ===================================================================== *)
(** * Running handlers *)
(* ===================================================================== *)

Section Runs.
Context {St : Type}.

Lemma run_fetch (net : network) u i (s : St) :
  fetch net u i s =
    match net (mkRequest u i) with
    | Rejects e => (Throw e, s, [EvFetch (mkRequest u i)])
    | Resolves r => (Ok r, s, [EvFetch (mkRequest u i)])
    end.
Proof. unfold fetch, bind, emit. simpl. by destruct (net _). Qed.

End Runs.

(* ===================================================================== *)
(** * AuthActions *)
(* ===================================================================== *)

Section AuthActionsFacts.
Variable env : option jsstring.
Variable net : network.

(** One run of [call], spelled out. *)
Lemma run_call onDone path method :
  AuthActions.call env net onDone path method tt =
    let req := mkRequest (AuthActions.API_BASE env ++ path)
                         (mkInit (Some method) (Some include)) in
    let '(answer, evs) :=
      match net req with
      | Rejects e => (false, [EvFetch req; EvConsoleError [JStr path] e])
      | Resolves r => (res_ok r, [EvFetch req])
      end in
    match onDone with
    | None => (Ok answer, tt, evs)
    | Some Returns => (Ok answer, tt, evs ++ [EvCall "onDone"])
    | Some (Throws e) => (Throw e, tt, evs ++ [EvCall "onDone"])
    end.
Proof.
  unfold AuthActions.call, try_finally, try_catch, bind.
  rewrite run_fetch. cbv zeta.
  by destruct (net _) as [e|r], onDone as [[|e']|].
Qed.

(** [call] answers [res.ok], or [false] after a throw: with a
    well-behaved [onDone] its promise always fulfils. *)
Lemma call_swallows_fetch_errors path method :
  result (AuthActions.call env net (Some Returns) path method tt) =
    Ok match net (mkRequest (AuthActions.API_BASE env ++ path)
                            (mkInit (Some method) (Some include))) with
       | Rejects _ => false
       | Resolves r => res_ok r
       end.
Proof. rewrite run_call. cbv zeta. by destruct (net _). Qed.

End AuthActionsFacts.

(** C4: every run of the logout action sends exactly one request, the
    [POST] to the logout endpoint with credentials included; [onDone] is
    invoked exactly once whether the response is ok, not ok, or the fetch
    throws; an error thrown by the fetch is written to the console and
    never reaches the caller, whose promise can only reject with what a
    callback throws. *)
Theorem logout_posts_once_and_always_calls_onDone
    (env : option jsstring) (net : network)
    (onLogout : option callback) (onDone : callback) :
  let run := AuthActions.handleLogout env net onLogout (Some onDone) tt in
  requests (events run) = [AuthActions.logout_request env] /\
  count_occ string_dec (calls (events run)) "onDone"%string = 1 /\
  logged (events run) =
    match net (AuthActions.logout_request env) with
    | Rejects e => [([JStr (lit "/auth/kakao/logout")], e)]
    | Resolves _ => []
    end /\
  result run =
    match onDone, onLogout with
    | Throws e, _ => Throw e
    | Returns, Some (Throws e) => Throw e
    | Returns, _ => Ok tt
    end.
Proof.
  cbv zeta. unfold AuthActions.handleLogout, bind.
  rewrite run_call. cbv zeta. fold (AuthActions.logout_request env).
  by destruct (net _) as [e|r], onDone as [|e'], onLogout as [[|e'']|].
Qed.

(** C10: in every run of the logout handler, and of the unlink handler,
    [onDone] is invoked strictly before [onLogout] (or [onUnlink]): the
    [finally] block of [call] has run before the handler resumes after
    its [await].  Should [onDone] throw, the handler stops there and the
    second callback is not invoked at all. *)
Theorem onDone_runs_before_action_callback
    (env : option jsstring) (net : network) (onAction onDone : callback) :
  calls (events (AuthActions.handleLogout env net (Some onAction) (Some onDone) tt))
    = "onDone"%string ::
      match onDone with Returns => ["onLogout"%string] | Throws _ => [] end /\
  calls (events (AuthActions.handleUnlink env net (Some onAction) (Some onDone) tt))
    = "onDone"%string ::
      match onDone with Returns => ["onUnlink"%string] | Throws _ => [] end.
Proof.
  unfold AuthActions.handleLogout, AuthActions.handleUnlink, bind.
  rewrite !run_call. cbv zeta.
  split.
  - by destruct (net _) as [e|r], onDone as [|e'], onAction as [|e''].
  - by destruct (net _) as [e|r], onDone as [|e'], onAction as [|e''].
Qed.

(* ===================================================================== *)
(** * Header, older variant *)
(* ===================================================================== *)

(** C8: in the older Header, every run of the logout handler sends one
    [GET] to [API_BASE/logout] and every run of the unlink handler one
    [GET] to [API_BASE/unlink], credentials included; whether the fetch
    resolved with a 2xx status, with another status, or threw, the run
    ends with local storage empty and the router on [/] (replacing the
    current entry), and the handler's promise fulfils. *)
Theorem legacy_logout_and_unlink_always_reset
    (env : option jsstring) (net : network) (p : LegacyHeader.page) :
  let done_with (run : outcome unit * LegacyHeader.page * list event)
                (endpoint : jsstring) :=
    requests (events run) =
      [mkRequest (LegacyHeader.API_BASE env ++ endpoint)
                 (mkInit (Some GET) (Some include))] /\
    LegacyHeader.localStorage (final run) = ∅ /\
    LegacyHeader.location (final run) = lit "/" /\
    LegacyHeader.history (final run) = LegacyHeader.history p /\
    result run = Ok tt in
  done_with (LegacyHeader.handleLogout env net p) (lit "/logout") /\
  done_with (LegacyHeader.handleUnlink env net p) (lit "/unlink").
Proof.
  cbv zeta.
  unfold LegacyHeader.handleLogout, LegacyHeader.handleUnlink,
    try_finally, try_catch, bind.
  rewrite !run_fetch.
  split; by destruct (net _) as [e|r].
Qed.

(* ===================================================================== *)
(** * Header, session-aware variant *)
(* ===================================================================== *)

Section HeaderFacts.
Variable env : option jsstring.
Variable net : network.

(** Every way a [whoami] fetch can end is one of the two cases. *)
Lemma whoami_cases (fr : fetch_result) :
  whoami_anonymous fr \/ exists data, whoami_logged_in fr data.
Proof.
  unfold whoami_anonymous, whoami_logged_in.
  destruct fr as [e|r]; [by left; eauto|].
  destruct (res_ok r) eqn:Hok; [|by left; right; left; eauto].
  destruct (body r) as [data|] eqn:Hb; [|by left; right; right; left; eauto].
  destruct (truthy (opt_member data (lit "logged_in"))) eqn:Ht.
  - right. exists data, r. done.
  - left. do 3 right. by exists r, data.
Qed.

(** A value with a truthy [logged_in] is an object, so the plain member
    reads that follow cannot throw. *)
Lemma member_of_logged_in data k :
  truthy (opt_member data (lit "logged_in")) = true ->
  member data k = Ok (own data k).
Proof. by destruct data. Qed.

Lemma fetchUserInfo_anonymous prior :
  whoami_anonymous (net (Header.whoami_request env)) ->
  final (Header.fetchUserInfo env net prior) = None.
Proof.
  unfold whoami_anonymous, Header.whoami_request, Header.fetchUserInfo,
    try_catch, bind.
  rewrite run_fetch.
  intros [[e ->]|[(r & -> & Hok)|[(r & -> & Hb)|(r & data & -> & Hb & Ht)]]].
  - done.
  - by rewrite Hok.
  - destruct (res_ok r); [|done]. unfold json. by rewrite Hb.
  - destruct (res_ok r); [|done]. unfold json. rewrite Hb. simpl.
    by rewrite Ht.
Qed.

Lemma fetchUserInfo_logged_in prior data :
  whoami_logged_in (net (Header.whoami_request env)) data ->
  final (Header.fetchUserInfo env net prior) =
    Some {| Header.email := or_else (own data (lit "email")) (JStr []);
            Header.nickname := or_else (own data (lit "nickname")) (JStr []);
            Header.profile_image := or_else (own data (lit "profile_image")) (JStr []);
            Header.id := own data (lit "id") |}.
Proof.
  unfold whoami_logged_in, Header.whoami_request, Header.fetchUserInfo,
    try_catch, bind.
  rewrite run_fetch.
  intros (r & -> & Hok & Hb & Ht).
  rewrite Hok. unfold json. rewrite Hb. simpl. rewrite Ht.
  by rewrite !(member_of_logged_in data _ Ht).
Qed.

End HeaderFacts.

(** C2: whatever the state before, a [whoami] fetch that throws, answers
    with a non-ok status, or carries a falsy [logged_in] leaves
    [userInfo] null; a successful answer with a truthy [logged_in] leaves
    a non-null [userInfo] holding the returned [email], [nickname],
    [profile_image] and [id]; and every fetch ends in one of these two
    ways. *)
Theorem fetchUserInfo_settles_session
    (env : option jsstring) (net : network) (prior : option Header.UserInfo) :
  let answer := net (Header.whoami_request env) in
  let after := final (Header.fetchUserInfo env net prior) in
  (whoami_anonymous answer -> after = None) /\
  (forall data, whoami_logged_in answer data ->
     exists u, after = Some u /\ carries data u) /\
  (whoami_anonymous answer \/ exists data, whoami_logged_in answer data).
Proof.
  cbv zeta. split; [|split].
  - apply fetchUserInfo_anonymous.
  - intros data Hin. eexists. split; [by apply fetchUserInfo_logged_in|].
    unfold carries, or_else. simpl. repeat split; by intros ->.
  - apply whoami_cases.
Qed.

(** C3, as the code has it: after a [whoami] answer with a truthy
    [logged_in], an [email], [nickname] or [profile_image] that is missing
    from the body (or falsy) is the empty string in the resulting
    [UserInfo]; [id] is copied from the body as it is, without a
    default. *)
Theorem missing_text_fields_default_to_empty
    (env : option jsstring) (net : network) (prior : option Header.UserInfo)
    (data : value) :
  whoami_logged_in (net (Header.whoami_request env)) data ->
  exists u, final (Header.fetchUserInfo env net prior) = Some u /\
    (truthy (own data (lit "email")) = false -> Header.email u = JStr []) /\
    (truthy (own data (lit "nickname")) = false -> Header.nickname u = JStr []) /\
    (truthy (own data (lit "profile_image")) = false ->
       Header.profile_image u = JStr []) /\
    Header.id u = own data (lit "id").
Proof.
  intros Hin. eexists. split; [by apply fetchUserInfo_logged_in|].
  simpl. unfold or_else. repeat split; by intros ->.
Qed.

(** Refutation of [every_missing_field_defaulted]: a body that is just
    [{ logged_in: true }] has no [id], and the resulting [UserInfo] has
    [id] undefined. *)
Lemma missing_id_stays_undefined :
  let net := always (Resolves (mkResponse 200 (Some bare_login))) in
  own bare_login (lit "id") = JUndefined /\
  final (Header.fetchUserInfo None net None) =
    Some (Header.mkUserInfo (JStr []) (JStr []) (JStr []) JUndefined) /\
  ~ every_missing_field_defaulted.
Proof.
  cbv zeta. split; [done|]. split; [done|].
  intros Hall.
  destruct (Hall None (always (Resolves (mkResponse 200 (Some bare_login))))
                 None bare_login
                 (Header.mkUserInfo (JStr []) (JStr []) (JStr []) JUndefined))
    as (_ & _ & _ & Hid).
  - by exists (mkResponse 200 (Some bare_login)).
  - done.
  - by apply Hid.
Qed.

(** C9, as the code has it: for a [UserInfo] whose nickname is a string
    or falsy, the initial shown is a one-character string: the first
    usable character of the nickname, that is the first one [trim]
    keeps, and the placeholder [U] when there is none because the
    nickname is null, empty or all white space. *)
Theorem initialChar_first_usable_or_placeholder (u : Header.UserInfo) :
  text_or_falsy (Header.nickname u) ->
  Header.initialChar (Some u) =
    Ok (JStr match first_usable (Header.nickname u) with
             | Some c => [c]
             | None => lit "U"
             end) /\
  exists c, Header.initialChar (Some u) = Ok (JStr [c]).
Proof.
  intros Htext.
  assert (Header.initialChar (Some u) =
    Ok (JStr match first_usable (Header.nickname u) with
             | Some c => [c]
             | None => lit "U"
             end)) as Heq.
  { unfold Header.initialChar, first_usable.
    destruct (truthy (Header.nickname u)) eqn:Ht.
    - destruct (Htext Ht) as [s Hs]. rewrite Hs in *.
      destruct s as [|c r]; [done|].
      rewrite charAt0_trim. by destruct (find usable (c :: r)).
    - destruct (Header.nickname u) as [| |b|x|s|xs|props]; try done.
      by destruct s. }
  split; [exact Heq|]. rewrite Heq.
  destruct (first_usable _); eauto.
Qed.

(** Refutation of [every_user_has_an_initial]: a [whoami] body whose
    nickname is the number 5 is stored as it is, and computing the
    initial of that [UserInfo] throws. *)
Lemma numeric_nickname_has_no_initial :
  let net := always (Resolves (mkResponse 200 (Some numeric_nickname_login))) in
  let stored := final (Header.fetchUserInfo None net None) in
  stored = Some (Header.mkUserInfo (JStr []) (JNum (S754_finite false 5 0))
                                   (JStr []) JUndefined) /\
  Header.initialChar stored = Throw TypeError /\
  ~ every_user_has_an_initial.
Proof.
  cbv zeta. split; [done|]. split; [done|].
  intros Hall.
  discriminate (Hall (Header.mkUserInfo (JStr []) (JNum (S754_finite false 5 0))
                                        (JStr []) JUndefined)).
Qed.

(** Without a [UserInfo] the initial is the placeholder as well. *)
Lemma initialChar_anonymous : Header.initialChar None = Ok (JStr (lit "U")).
Proof. reflexivity. Qed.

(** A truthy nickname that is not text has no [trim]: the expression
    throws instead of yielding an initial. *)
Lemma initialChar_needs_text (u : Header.UserInfo) :
  truthy (Header.nickname u) = true ->
  (forall s, Header.nickname u <> JStr s) ->
  Header.initialChar (Some u) = Throw TypeError.
Proof.
  unfold Header.initialChar. intros -> Hs.
  destruct (Header.nickname u); try done. by destruct (Hs s).
Qed.

(* ===================================================================== *)
(** * App *)
(* ===================================================================== *)

Section AppFacts.
Variable env : option jsstring.
Variable hostname : option jsstring.
Variable net : network.

(** One run of the startup effect, spelled out. *)
Lemma run_checkSession (prior : App.state) :
  App.checkSession env hostname net prior =
    (Ok tt,
     App.mkState true (session_body_ok (net (App.session_request env hostname))),
     [EvFetch (App.session_request env hostname)]).
Proof.
  unfold App.checkSession, App.session_request, try_finally, try_catch, bind.
  rewrite run_fetch. unfold session_body_ok, json.
  destruct (net _) as [e|r]; [done|].
  by destruct (body r).
Qed.

End AppFacts.

(** C1, as the code has it: after the startup fetch App is logged in
    exactly when the fetch resolved and its body parsed to a value with a
    truthy [ok], whatever the HTTP status; a rejected fetch, a body that
    is not JSON and a falsy or missing [ok] all leave App anonymous. *)
Theorem session_check_trusts_body_only
    (env hostname : option jsstring) (net : network) (prior : App.state) :
  App.isLoggedIn (final (App.checkSession env hostname net prior)) =
    match net (App.session_request env hostname) with
    | Rejects _ => false
    | Resolves r =>
        match body r with
        | Some data => truthy (opt_member data (lit "ok"))
        | None => false
        end
    end.
Proof. by rewrite run_checkSession. Qed.

(** Refutation of [logged_in_only_on_success]: a 401 answer whose body is
    [{ ok: true }] logs App in. *)
Lemma unauthorized_status_with_ok_body_logs_in :
  let answer := mkResponse 401 (Some (session_body true)) in
  res_ok answer = false /\
  App.isLoggedIn
    (final (App.checkSession None None (always (Resolves answer)) App.initial))
    = true /\
  ~ logged_in_only_on_success.
Proof.
  cbv zeta. split; [done|]. split; [done|].
  intros Honly.
  destruct (Honly None None
              (always (Resolves (mkResponse 401 (Some (session_body true)))))
              App.initial eq_refl)
    as (r & data & Hr & Hok & _).
  inversion Hr; subst r. discriminate Hok.
Qed.



(* ===================================================================== *)
(** * Route tables *)
(* ===================================================================== *)

(** C6, as the code has it: for a location that no listed route matches,
    both tables of App (anonymous and authenticated) mount the redirect to
    [/]; the table of the standalone Router mounts [LoginPage] in place,
    without a redirect. *)
Theorem wildcard_redirects_in_App_only
    (matches : jsstring -> jsstring -> bool) (loc : jsstring) :
  (unmatched matches App.anonymous_routes loc ->
   redirects_to (resolve matches App.anonymous_routes loc) (lit "/")) /\
  (unmatched matches App.authenticated_routes loc ->
   redirects_to (resolve matches App.authenticated_routes loc) (lit "/")) /\
  (unmatched matches (@AppRouter.routes unit) loc ->
   resolve matches (@AppRouter.routes unit) loc = Some (LoginPage None)).
Proof.
  unfold unmatched, redirects_to, resolve.
  repeat split; by intros ->.
Qed.

(** Refutation of [wildcard_redirects_everywhere]: in the Router table the
    location [/nope] is matched by no listed route and gets [LoginPage],
    not a redirect. *)
Lemma router_wildcard_mounts_login_page :
  unmatched match_segments (@AppRouter.routes unit) (lit "/nope") /\
  resolve match_segments (@AppRouter.routes unit) (lit "/nope")
    = Some (LoginPage None) /\
  ~ wildcard_redirects_everywhere.
Proof.
  split; [done|]. split; [done|].
  intros Hall.
  destruct (Hall match_segments (lit "/nope")) as (_ & _ & Hrouter).
  discriminate (Hrouter eq_refl).
Qed.

(* ===================================================================== *)
(** * API_BASE *)
(* ===================================================================== *)

Section ApiBase.
Variable env : option jsstring.

Lemma onrender_clean : ~ ends_with_slash AuthActions.onrender.
Proof. by unfold ends_with_slash. Qed.

(** The three resolutions that strip. *)
Lemma AuthActions_API_BASE_clean : ~ ends_with_slash (AuthActions.API_BASE env).
Proof.
  unfold AuthActions.API_BASE, and_then, or_default.
  destruct env as [[|c r]|]; try apply onrender_clean.
  destruct (strip_trailing_slashes (c :: r)) as [|d r'] eqn:E;
    [apply onrender_clean|].
  rewrite <- E. apply strip_trailing_slashes_clean.
Qed.

Lemma Header_API_BASE_clean : ~ ends_with_slash (Header.API_BASE env).
Proof. apply AuthActions_API_BASE_clean. Qed.

Lemma App_API_BASE_clean hostname : ~ ends_with_slash (App.API_BASE env hostname).
Proof. apply strip_trailing_slashes_clean. Qed.

(** The override wins wherever it is set to something other than
    slashes. *)
Lemma AuthActions_API_BASE_override e :
  env = Some e -> strip_trailing_slashes e <> [] ->
  AuthActions.API_BASE env = strip_trailing_slashes e.
Proof.
  intros -> He. unfold AuthActions.API_BASE, and_then, or_default.
  destruct e as [|c r]; [done|].
  by destruct (strip_trailing_slashes (c :: r)).
Qed.

(** An override made of slashes only: nothing is left after stripping,
    so AuthActions and the session-aware Header fall back to the default
    while App keeps the empty base. *)
Lemma API_BASE_of_slashes n :
  env = Some (replicate (S n) slash) ->
  AuthActions.API_BASE env = AuthActions.onrender /\
  Header.API_BASE env = Header.onrender /\
  forall hostname, App.API_BASE env hostname = [].
Proof.
  intros ->.
  assert (strip_trailing_slashes (replicate (S n) slash) = []) as Hs.
  { induction n as [|n IH]; [done|].
    change (replicate (S (S n)) slash) with (slash :: replicate (S n) slash).
    by rewrite strip_trailing_slashes_cons, IH. }
  unfold AuthActions.API_BASE, Header.API_BASE, App.API_BASE, and_then, or_default.
  cbn [replicate] in *. by rewrite Hs.
Qed.

Lemma App_API_BASE_override hostname e :
  env = Some e -> e <> [] ->
  App.API_BASE env hostname = strip_trailing_slashes e.
Proof. intros -> He. unfold App.API_BASE, or_default. by destruct e. Qed.

End ApiBase.

(** C7: the older Header does not strip.  With the override set to
    [https://api.example.com/] its [API_BASE] is that string, slash and
    all, and logout fetches [https://api.example.com//logout]; on the same
    override AuthActions, the session-aware Header and App all resolve to
    [https://api.example.com]. *)
Theorem legacy_API_BASE_keeps_trailing_slash :
  let override := Some (lit "https://api.example.com/") in
  LegacyHeader.API_BASE override = lit "https://api.example.com/" /\
  ends_with_slash (LegacyHeader.API_BASE override) /\
  requests (events (LegacyHeader.handleLogout override offline
                      (LegacyHeader.mkPage ∅ (lit "/home") [])))
    = [mkRequest (lit "https://api.example.com//logout")
                 (mkInit (Some GET) (Some include))] /\
  AuthActions.API_BASE override = lit "https://api.example.com" /\
  Header.API_BASE override = lit "https://api.example.com" /\
  App.API_BASE override None = lit "https://api.example.com".
Proof. cbv zeta. by repeat split. Qed.

(* ===================================================================== *)
(** * The statements at sample inputs *)
(* ===================================================================== *)

(** C2 at two inputs: the network is down while a user is shown, and a
    full profile arrives while nobody is. *)
Lemma fetchUserInfo_settles_session_sample :
  final (Header.fetchUserInfo None offline
           (Some (Header.mkUserInfo (JStr []) (JStr (lit "Kim")) (JStr []) JNull)))
    = None /\
  exists u,
    final (Header.fetchUserInfo None
             (always (Resolves (mkResponse 200 (Some full_login)))) None)
      = Some u /\
    carries full_login u.
Proof.
  split.
  - destruct (fetchUserInfo_settles_session None offline
                (Some (Header.mkUserInfo (JStr []) (JStr (lit "Kim")) (JStr []) JNull)))
      as (Hanon & _ & _).
    apply Hanon. left. eexists. reflexivity.
  - destruct (fetchUserInfo_settles_session None
                (always (Resolves (mkResponse 200 (Some full_login)))) None)
      as (_ & Hin & _).
    apply Hin. exists (mkResponse 200 (Some full_login)).
    repeat split; reflexivity.
Defined.

(** C3 at the body [{ logged_in: true }]. *)
Lemma missing_text_fields_default_to_empty_sample :
  whoami_logged_in
    (always (Resolves (mkResponse 200 (Some bare_login)))
       (Header.whoami_request None))
    bare_login /\
  exists u,
    final (Header.fetchUserInfo None
             (always (Resolves (mkResponse 200 (Some bare_login)))) None)
      = Some u /\
    (truthy (own bare_login (lit "email")) = false -> Header.email u = JStr []) /\
    (truthy (own bare_login (lit "nickname")) = false -> Header.nickname u = JStr []) /\
    (truthy (own bare_login (lit "profile_image")) = false ->
       Header.profile_image u = JStr []) /\
    Header.id u = own bare_login (lit "id").
Proof.
  assert (whoami_logged_in
            (always (Resolves (mkResponse 200 (Some bare_login)))
               (Header.whoami_request None))
            bare_login) as Hin.
  { exists (mkResponse 200 (Some bare_login)). repeat split; reflexivity. }
  split; [exact Hin|].
  exact (missing_text_fields_default_to_empty None
           (always (Resolves (mkResponse 200 (Some bare_login)))) None
           bare_login Hin).
Defined.

(** C9 at the nickname [" Kim"]: the initial is [K]. *)
Lemma initialChar_first_usable_or_placeholder_sample :
  let u := Header.mkUserInfo (JStr []) (JStr (lit " Kim")) (JStr []) JNull in
  text_or_falsy (Header.nickname u) /\
  Header.initialChar (Some u) = Ok (JStr (lit "K")).
Proof.
  cbv zeta.
  assert (text_or_falsy (JStr (lit " Kim"))) as Htext.
  { intros _. exists (lit " Kim"). reflexivity. }
  split; [exact Htext|].
  exact (proj1 (initialChar_first_usable_or_placeholder
                  (Header.mkUserInfo (JStr []) (JStr (lit " Kim")) (JStr []) JNull)
                  Htext)).
Defined.


(** C6 at the location [/nope], which no table lists. *)
Lemma wildcard_redirects_in_App_only_sample :
  redirects_to (resolve match_segments App.anonymous_routes (lit "/nope")) (lit "/") /\
  redirects_to (resolve match_segments App.authenticated_routes (lit "/nope")) (lit "/") /\
  resolve match_segments (@AppRouter.routes unit) (lit "/nope") = Some (LoginPage None).
Proof.
  destruct (wildcard_redirects_in_App_only match_segments (lit "/nope"))
    as (Hanon & Hauth & Hrouter).
  split; [apply Hanon; reflexivity|].
  split; [apply Hauth; reflexivity|].
  apply Hrouter; reflexivity.
Defined.

(* ===================================================================== *)
(** * Further properties: strings *)
(* ===================================================================== *)

Section MoreStringFacts.

(** A string made of slashes strips to nothing. *)
Lemma strip_trailing_slashes_replicate n :
  strip_trailing_slashes (replicate n slash) = [].
Proof.
  induction n as [|n IH]; [done|].
  cbn [replicate]. by rewrite strip_trailing_slashes_cons, IH.
Qed.

(** Slashes added at the end do not change the stripped string. *)
Lemma strip_trailing_slashes_app_slashes s n :
  strip_trailing_slashes (s ++ replicate n slash) = strip_trailing_slashes s.
Proof.
  induction s as [|c r IH]; [apply strip_trailing_slashes_replicate|].
  rewrite <- app_comm_cons, !strip_trailing_slashes_cons. by rewrite IH.
Qed.

Lemma strip_trailing_slashes_nil_inv s :
  strip_trailing_slashes s = [] -> exists n, s = replicate n slash.
Proof.
  intros Hs. destruct (strip_trailing_slashes_suffix s) as [n Hn].
  rewrite Hs in Hn. by exists n.
Qed.

(** [endsWith] is true exactly when the suffix ends the string. *)
Lemma endsWith_spec s suffix :
  endsWith s suffix = true <-> exists p, s = p ++ suffix.
Proof.
  induction s as [|c r IH]; cbn [endsWith].
  - case_bool_decide as Hd; [subst; split; [by exists []|done]|].
    split; [done|]. intros [p Hp]. symmetry in Hp.
    apply app_eq_nil in Hp as [_ ->]. done.
  - case_bool_decide as Hd.
    + split; [|done]. intros _. exists []. done.
    + rewrite IH. split.
      * intros [p ->]. by exists (c :: p).
      * intros [[|c' p] Hp]; [by destruct Hd|].
        inversion Hp; subst. by exists p.
Qed.

End MoreStringFacts.

(* ===================================================================== *)
(** * Further properties: AuthActions *)
(* ===================================================================== *)


(** X2: [call] sends its one request with the given method and with
    credentials, and answers [true] exactly when the fetch resolved with
    a status from 200 to 299: another status and a rejected fetch both
    answer [false].  A throw of [onDone] in the [finally] block replaces
    the answer. *)
Theorem call_answers_whether_status_is_2xx
    (env : option jsstring) (net : network) (onDone : option callback)
    (path method : jsstring) :
  let req := mkRequest (AuthActions.API_BASE env ++ path)
                       (mkInit (Some method) (Some include)) in
  let run := AuthActions.call env net onDone path method tt in
  requests (events run) = [req] /\
  match onDone with
  | Some (Throws e) => result run = Throw e
  | _ =>
      exists answer, result run = Ok answer /\
        (answer = true <->
         exists r, net req = Resolves r /\ (200 <= status r <= 299)%N)
  end.
Proof.
  cbv zeta. rewrite run_call. cbv zeta.
  assert (forall r : response,
            res_ok r = true <-> (200 <= status r <= 299)%N) as Hok.
  { intros r. unfold res_ok. rewrite andb_true_iff, !N.leb_le. done. }
  destruct (net _) as [e|r] eqn:Hnet.
  - split; [by destruct onDone as [[|e']|]|].
    destruct onDone as [[|e']|]; try done;
      (exists false; split; [done|]; split; [done|]; by intros (r & Hr & _)).
  - split; [by destruct onDone as [[|e']|]|].
    destruct onDone as [[|e']|]; try done;
      (exists (res_ok r); split; [done|]; rewrite Hok; split;
       [by intros; exists r | by intros (r' & [= <-] & Hr')]).
Qed.


(* ===================================================================== *)
(** * Further properties: API_BASE *)
(* ===================================================================== *)

(** X4: in AuthActions and in the session-aware Header the number of
    slashes that end the override does not matter: adding any to it
    leaves [API_BASE] as it was. *)
Theorem API_BASE_ignores_trailing_slashes (e : jsstring) (n : nat) :
  AuthActions.API_BASE (Some (e ++ replicate n slash))
    = AuthActions.API_BASE (Some e) /\
  Header.API_BASE (Some (e ++ replicate n slash)) = Header.API_BASE (Some e).
Proof.
  assert (forall d, or_default (and_then (Some (e ++ replicate n slash))
                                  strip_trailing_slashes) d
                    = or_default (and_then (Some e) strip_trailing_slashes) d)
    as Heq.
  { intros d. unfold and_then, or_default.
    pose proof (strip_trailing_slashes_app_slashes e n) as Hs.
    destruct e as [|c r]; cbn [app] in *.
    - destruct (replicate n slash) as [|c' r']; [done|]. by rewrite Hs.
    - by rewrite Hs. }
  split; apply Heq.
Qed.

(** X5: in App, too, slashes added to a non-empty override change
    nothing (an empty override is no override, while one made of slashes
    only is the empty base). *)
Theorem App_API_BASE_ignores_trailing_slashes
    (e : jsstring) (n : nat) (hostname : option jsstring) :
  e <> [] ->
  App.API_BASE (Some (e ++ replicate n slash)) hostname
    = App.API_BASE (Some e) hostname.
Proof.
  intros He. unfold App.API_BASE, or_default.
  destruct e as [|c r]; [done|]. cbn [app].
  change (c :: r ++ replicate n slash) with ((c :: r) ++ replicate n slash).
  apply strip_trailing_slashes_app_slashes.
Qed.

(** X6: wherever the override is stripped (AuthActions, the
    session-aware Header, App), [API_BASE] never ends in a slash, so
    joining it with a path that starts with one never doubles it; and
    App's [API_BASE] is the override, or else one of its two defaults,
    less the slashes at its end and nothing more. *)
Theorem stripped_API_BASE_has_no_trailing_slash
    (env hostname : option jsstring) :
  ~ ends_with_slash (AuthActions.API_BASE env) /\
  ~ ends_with_slash (Header.API_BASE env) /\
  ~ ends_with_slash (App.API_BASE env hostname) /\
  exists fallback n,
    fallback ∈ [App.onrender; App.localhost] /\
    or_default env fallback = App.API_BASE env hostname ++ replicate n slash.
Proof.
  split; [apply AuthActions_API_BASE_clean|].
  split; [apply Header_API_BASE_clean|].
  split; [apply App_API_BASE_clean|].
  unfold App.API_BASE.
  set (fallback := if match hostname with
                      | Some h => endsWith h (lit "github.io")
                      | None => false
                      end then App.onrender else App.localhost).
  destruct (strip_trailing_slashes_suffix (or_default env fallback)) as [n Hn].
  exists fallback, n. split; [|exact Hn].
  unfold fallback.
  destruct (match hostname with Some h => _ | None => _ end); set_solver.
Qed.

(** X7: without an override (unset or empty) App talks to the deployed
    backend exactly on hosts whose name ends in [github.io], and to
    [localhost:8000] on every other host and where there is no
    [window]; a non-empty override wins whatever the host. *)
Theorem App_API_BASE_by_hostname (env : option jsstring) :
  (env = None \/ env = Some []) ->
  (forall p, App.API_BASE env (Some (p ++ lit "github.io")) = App.onrender) /\
  (forall h, (forall p, h <> p ++ lit "github.io") ->
             App.API_BASE env (Some h) = App.localhost) /\
  App.API_BASE env None = App.localhost.
Proof.
  intros Henv.
  assert (forall d, or_default env d = d) as Hd.
  { intros d. by destruct Henv as [->| ->]. }
  unfold App.API_BASE. repeat split.
  - intros p. rewrite Hd.
    assert (endsWith (p ++ lit "github.io") (lit "github.io") = true) as ->.
    { apply endsWith_spec. by exists p. }
    done.
  - intros h Hh. rewrite Hd.
    destruct (endsWith h (lit "github.io")) eqn:He; [|done].
    apply endsWith_spec in He as [p ->]. by destruct (Hh p).
  - by rewrite Hd.
Qed.

(* ===================================================================== *)
(** * Further properties: Header, session-aware variant *)
(* ===================================================================== *)

Section MoreHeaderFacts.
Variable env : option jsstring.

(** One run of [fetchUserInfo], spelled out. *)
Lemma run_fetchUserInfo (net : network) (prior : option Header.UserInfo) :
  Header.fetchUserInfo env net prior =
    (Ok tt,
     whoami_verdict (net (Header.whoami_request env)),
     EvFetch (Header.whoami_request env) ::
     match net (Header.whoami_request env) with
     | Rejects e => [EvConsoleError [JStr Header.fetch_failed_message] e]
     | Resolves r =>
         if res_ok r then
           match body r with
           | Some _ => []
           | None => [EvConsoleError [JStr Header.fetch_failed_message] SyntaxError]
           end
         else []
     end).
Proof.
  unfold Header.fetchUserInfo, Header.whoami_request, whoami_verdict,
    try_catch, bind.
  rewrite run_fetch.
  destruct (net _) as [e|r]; [done|].
  destruct (res_ok r); [|done].
  unfold json. destruct (body r) as [data|]; [|done].
  simpl. destruct (truthy (opt_member data (lit "logged_in"))) eqn:Ht; [|done].
  by rewrite !(member_of_logged_in data _ Ht).
Qed.

Lemma run_refetch_all (nets : list network) (prior : option Header.UserInfo) :
  result (Header.refetch_all env nets prior) = Ok tt /\
  length (requests (events (Header.refetch_all env nets prior))) = length nets /\
  final (Header.refetch_all env nets prior) =
    match last nets with
    | Some net => whoami_verdict (net (Header.whoami_request env))
    | None => prior
    end.
Proof.
  revert prior. induction nets as [|net rest IH]; intros prior; [done|].
  cbn [Header.refetch_all]. unfold bind. rewrite run_fetchUserInfo.
  destruct (IH (whoami_verdict (net (Header.whoami_request env))))
    as (Hres & Hlen & Hfin).
  destruct (Header.refetch_all env rest _) as [[o s] evs] eqn:Hrun.
  unfold result, final, events in *. cbn [fst snd] in *.
  split; [done|]. split.
  - unfold requests in *. rewrite omap_app, length_app, Hlen.
    cbn [length]. f_equal.
    by destruct (net _) as [e|r]; [|destruct (res_ok r), (body r)].
  - rewrite Hfin. destruct rest as [|net' rest']; [done|].
    rewrite last_cons_cons.
    destruct (last (net' :: rest')) eqn:Hl; [done|].
    by apply last_None in Hl.
Qed.

Lemma or_else_empty_usable_or_empty v : usable_or_empty (or_else v (JStr [])).
Proof.
  unfold usable_or_empty, or_else.
  destruct (truthy v) eqn:E; [by left|by right].
Qed.

Lemma whoami_verdict_usable_or_empty fr u :
  whoami_verdict fr = Some u ->
  usable_or_empty (Header.email u) /\
  usable_or_empty (Header.nickname u) /\
  usable_or_empty (Header.profile_image u).
Proof.
  unfold whoami_verdict.
  destruct fr as [e|r]; [done|].
  destruct (res_ok r); [|done].
  destruct (body r) as [data|]; [|done].
  destruct (truthy (opt_member data (lit "logged_in"))); [|done].
  intros [= <-]. cbn [Header.email Header.nickname Header.profile_image].
  repeat split; apply or_else_empty_usable_or_empty.
Qed.


End MoreHeaderFacts.

(** X8: every run of [fetchUserInfo] sends exactly one request, to the
    [whoami] URL with credentials included and no method given (a
    [GET]); it never retries and its promise always fulfils.  It writes
    to the console exactly when the fetch rejected or a 2xx body was
    not JSON: an answer with another status is dropped silently. *)
Theorem fetchUserInfo_one_request_never_throws
    (env : option jsstring) (net : network) (prior : option Header.UserInfo) :
  let run := Header.fetchUserInfo env net prior in
  requests (events run) =
    [mkRequest (Header.API_BASE env ++ lit "/auth/kakao/whoami")
               (mkInit None (Some include))] /\
  result run = Ok tt /\
  logged (events run) =
    match net (Header.whoami_request env) with
    | Rejects e => [([JStr Header.fetch_failed_message], e)]
    | Resolves r =>
        match body r with
        | None => if res_ok r
                  then [([JStr Header.fetch_failed_message], SyntaxError)]
                  else []
        | Some _ => []
        end
    end.
Proof.
  cbv zeta. rewrite run_fetchUserInfo.
  by destruct (net _) as [e|r]; [|destruct (res_ok r), (body r)].
Qed.

(** X9: last answer wins.  After any series of re-fetches (mount, path
    changes, focus, AuthActions callbacks) the state is what the last
    fetch to settle alone would leave from any state: nothing of the
    earlier state or of the earlier answers survives.  The series sends
    one request per trigger and never throws. *)
Theorem last_whoami_answer_wins
    (env : option jsstring) (earlier : list network) (net : network)
    (prior other : option Header.UserInfo) :
  let run := Header.refetch_all env (earlier ++ [net]) prior in
  final run = final (Header.fetchUserInfo env net other) /\
  length (requests (events run)) = S (length earlier) /\
  result run = Ok tt.
Proof.
  cbv zeta.
  destruct (run_refetch_all env (earlier ++ [net]) prior) as (Hres & Hlen & Hfin).
  rewrite Hfin, Hlen, last_snoc, length_app, run_fetchUserInfo.
  cbn [length]. repeat split; [lia|done].
Qed.

(** X10: starting from the anonymous state, whatever the network answers
    to any series of re-fetches, a stored [UserInfo] never has a null or
    undefined [email], [nickname] or [profile_image]: each is a usable
    value or the empty string. *)
Theorem stored_profile_fields_are_safe
    (env : option jsstring) (nets : list network) (u : Header.UserInfo) :
  final (Header.refetch_all env nets None) = Some u ->
  usable_or_empty (Header.email u) /\
  usable_or_empty (Header.nickname u) /\
  usable_or_empty (Header.profile_image u).
Proof.
  destruct (run_refetch_all env nets None) as (_ & _ & ->).
  destruct (last nets) as [net|]; [|done].
  apply whoami_verdict_usable_or_empty.
Qed.

(** X11: fetch and render together.  After a successful [whoami] answer
    whose [nickname] is text or falsy (missing included), computing the
    initial does not throw, and the initial is the first usable
    character of the returned nickname, or [U] when it has none. *)
Theorem initial_after_whoami
    (env : option jsstring) (net : network) (prior : option Header.UserInfo)
    (data : value) :
  whoami_logged_in (net (Header.whoami_request env)) data ->
  (truthy (own data (lit "nickname")) = true ->
   exists s, own data (lit "nickname") = JStr s) ->
  Header.initialChar (final (Header.fetchUserInfo env net prior)) =
    Ok (JStr match first_usable (own data (lit "nickname")) with
             | Some c => [c]
             | None => lit "U"
             end).
Proof.
  intros Hin Htext.
  rewrite (fetchUserInfo_logged_in env net prior data Hin).
  unfold Header.initialChar, first_usable, or_else. cbn [Header.nickname].
  destruct (truthy (own data (lit "nickname"))) eqn:Ht.
  - destruct (Htext eq_refl) as [s Hs]. rewrite Hs in *.
    destruct s as [|c r]; [done|]. cbn [truthy].
    rewrite charAt0_trim. by destruct (find usable (c :: r)).
  - cbn [truthy].
    destruct (own data (lit "nickname")) as [| |b|x|s|xs|props]; try done.
    by destruct s.
Qed.

(** X12: the anonymous Header renders without throwing and shows
    neither a profile nor AuthActions; with a [UserInfo], whenever the
    render goes through, the profile is shown and the mounted
    AuthActions renders both of its buttons (it is never given a falsy
    [loggedIn]).  The FAQ button is there exactly on [/chat]. *)
Theorem header_shows_session_controls_iff_logged_in
    (env : option jsstring) (net : network) (location_pathname : option jsstring) :
  let on_chat := bool_decide (location_pathname = Some (lit "/chat")) in
  Header.render env net location_pathname None
    = Ok (Header.mkView on_chat None None) /\
  forall u v,
    Header.render env net location_pathname (Some u) = Ok v ->
    Header.faq v = on_chat /\
    (exists p, Header.profile_block v = Some p) /\
    (exists logout unlink,
       Header.actions v = Some [logout; unlink] /\
       AuthActions.label logout = AuthActions.logout_label /\
       AuthActions.label unlink = AuthActions.unlink_label).
Proof.
  cbv zeta.
  assert (Header.isChatPage location_pathname
          = bool_decide (location_pathname = Some (lit "/chat"))) as Hchat.
  { unfold Header.isChatPage, Header.pathname, or_default.
    destruct location_pathname as [[|c r]|]; try done.
    apply bool_decide_ext. split; congruence. }
  split.
  - unfold Header.render. cbn. by rewrite Hchat.
  - intros u v. unfold Header.render.
    destruct (Header.initialChar (Some u)) as [c|e]; [|done].
    intros [= <-]. cbn. rewrite Hchat. split; [done|].
    split; [by eexists|]. by eexists _, _.
Qed.


(* ===================================================================== *)
(** * Further properties: Header, older variant *)
(* ===================================================================== *)

(** X14: the older handlers write to the console exactly when the fetch
    rejects, and then just the error; an answer with a non-2xx status
    is not looked at and leaves no trace. *)
Theorem legacy_handlers_log_only_rejections
    (env : option jsstring) (net : network) (p : LegacyHeader.page) :
  let trace (endpoint : jsstring) :=
    match net (mkRequest (LegacyHeader.API_BASE env ++ endpoint)
                         (mkInit (Some GET) (Some include))) with
    | Rejects e => [([], e)]
    | Resolves _ => []
    end in
  logged (events (LegacyHeader.handleLogout env net p)) = trace (lit "/logout") /\
  logged (events (LegacyHeader.handleUnlink env net p)) = trace (lit "/unlink").
Proof.
  cbv zeta.
  unfold LegacyHeader.handleLogout, LegacyHeader.handleUnlink,
    try_finally, try_catch, bind.
  rewrite !run_fetch.
  split; by destruct (net _) as [e|r].
Qed.

(* ===================================================================== *)
(** * Further properties: App *)
(* ===================================================================== *)

(** X15: the startup check sends exactly one request, to
    [API_BASE/auth/session] with credentials included and no method
    given; it writes nothing to the console, whatever fails; its promise
    always fulfils; and it overwrites both state variables, so what it
    leaves does not depend on the state before. *)
Theorem checkSession_one_silent_request
    (env hostname : option jsstring) (net : network) (prior other : App.state) :
  let run := App.checkSession env hostname net prior in
  requests (events run) =
    [mkRequest (App.API_BASE env hostname ++ lit "/auth/session")
               (mkInit None (Some include))] /\
  logged (events run) = [] /\
  result run = Ok tt /\
  final run = final (App.checkSession env hostname net other).
Proof. cbv zeta. by rewrite !run_checkSession. Qed.

(** X16: logging in through [LoginPage] after the startup check, whatever
    that check found, leaves App checked and logged in, rendering the
    authenticated table; a second [onLogin] changes nothing. *)
Theorem login_after_check_shows_authenticated_routes
    (env hostname : option jsstring) (net : network) (prior : App.state) :
  let logged_in :=
    final ((App.checkSession env hostname net ;; App.onLogin) prior) in
  logged_in = App.mkState true true /\
  App.render logged_in
    = App.RouterView (lit "/AIChatbotProject") App.authenticated_routes /\
  final (App.onLogin logged_in) = logged_in.
Proof.
  cbv zeta. unfold bind. rewrite run_checkSession. by repeat split.
Qed.

(* ===================================================================== *)
(** * Further properties: route tables *)
(* ===================================================================== *)

Section RouteFacts.
Variable matches : jsstring -> jsstring -> bool.

(** What the anonymous table can mount. *)
Lemma resolve_anonymous (loc : jsstring) :
  resolve matches App.anonymous_routes loc =
    Some (if matches (lit "/") loc
          then LoginPage (Some App.onLogin)
          else Navigate (lit "/") true).
Proof.
  unfold resolve, listed_match, App.anonymous_routes. cbn [find path].
  change (is_splat (lit "/")) with false. change (is_splat (lit "*")) with true.
  cbn [negb andb]. by destruct (matches (lit "/") loc).
Qed.

(** What the authenticated table can mount. *)
Lemma resolve_authenticated (loc : jsstring) :
  resolve matches App.authenticated_routes loc =
    Some (if matches (lit "/") loc then HomePage
          else if matches (lit "/home") loc then HomePage
          else if matches (lit "/chat") loc then ChatBotPage
          else if matches (lit "/patient") loc
               then Navigate (lit "/patient/25-0000032") true
          else if matches (lit "/patient/:patientId") loc then PatientInfoPage
          else if matches (lit "/feedback") loc then FeedbackPage
          else Navigate (lit "/") true).
Proof.
  unfold resolve, listed_match, App.authenticated_routes. cbn [find path].
  change (is_splat (lit "/")) with false.
  change (is_splat (lit "/home")) with false.
  change (is_splat (lit "/chat")) with false.
  change (is_splat (lit "/patient")) with false.
  change (is_splat (lit "/patient/:patientId")) with false.
  change (is_splat (lit "/feedback")) with false.
  change (is_splat (lit "*")) with true.
  cbn [negb andb].
  by repeat (match goal with |- context [matches ?p loc] =>
                               destruct (matches p loc) end).
Qed.

(** What the Router table can mount. *)
Lemma resolve_AppRouter {H} (loc : jsstring) :
  resolve matches (@AppRouter.routes H) loc =
    Some (if matches (lit "/") loc then LoginPage None
          else if matches (lit "/home") loc then HomePage
          else if matches (lit "/chat") loc then ChatBotPage
          else if matches (lit "/patient-info") loc then PatientInfoPage
          else if matches (lit "/feedback") loc then FeedbackPage
          else LoginPage None).
Proof.
  unfold resolve, listed_match, AppRouter.routes. cbn [find path].
  change (is_splat (lit "/")) with false.
  change (is_splat (lit "/home")) with false.
  change (is_splat (lit "/chat")) with false.
  change (is_splat (lit "/patient-info")) with false.
  change (is_splat (lit "/feedback")) with false.
  change (is_splat (lit "*")) with true.
  cbn [negb andb].
  by repeat (match goal with |- context [matches ?p loc] =>
                               destruct (matches p loc) end).
Qed.

End RouteFacts.

(** X17: before login nothing but the login page can be reached: at
    every location App's anonymous table mounts [LoginPage] (wired to
    [onLogin]) or the redirect to [/], however the router matches. *)
Theorem anonymous_table_reaches_only_login
    (matches : jsstring -> jsstring -> bool) (loc : jsstring) :
  resolve matches App.anonymous_routes loc = Some (LoginPage (Some App.onLogin)) \/
  resolve matches App.anonymous_routes loc = Some (Navigate (lit "/") true).
Proof.
  rewrite resolve_anonymous. destruct (matches (lit "/") loc); auto.
Qed.

(** X18: after login the login page is gone: at every location App's
    authenticated table mounts something, and never [LoginPage]. *)
Theorem authenticated_table_never_mounts_login
    (matches : jsstring -> jsstring -> bool) (loc : jsstring) :
  exists e,
    resolve matches App.authenticated_routes loc = Some e /\
    is_login_page e = false.
Proof.
  rewrite resolve_authenticated. eexists. split; [done|].
  by repeat (match goal with |- context [matches ?p loc] =>
                               destruct (matches p loc) end).
Qed.

(** X19: the standalone Router has no redirect and no blank page: at
    every location its table mounts a page, and for every location it
    does not list that page is the login page. *)
Theorem AppRouter_always_mounts_a_page
    (matches : jsstring -> jsstring -> bool) (loc : jsstring) :
  exists e : element unit,
    resolve matches AppRouter.routes loc = Some e /\
    is_page e = true /\
    (unmatched matches (@AppRouter.routes unit) loc -> e = LoginPage None).
Proof.
  eexists. split; [apply resolve_AppRouter|]. split.
  - by repeat (match goal with |- context [matches ?p loc] =>
                                 destruct (matches p loc) end).
  - intros Hun.
    assert (resolve matches (@AppRouter.routes unit) loc = Some (LoginPage None))
      as Hwild by (unfold resolve; by rewrite Hun).
    rewrite resolve_AppRouter in Hwild. by injection Hwild.
Qed.

(** X20: redirects neither chain nor loop.  With a router that tells the
    redirect targets apart, following the redirect that a location may
    mount always ends on a page after that one hop: on [LoginPage] in
    the anonymous table, and on a page other than [LoginPage] in the
    authenticated one. *)
Theorem redirects_settle_after_one_hop
    (matches : jsstring -> jsstring -> bool) (loc : jsstring) :
  separates_redirect_targets matches ->
  (exists e, resolve_after_redirect matches App.anonymous_routes loc = Some e /\
             is_login_page e = true) /\
  (exists e, resolve_after_redirect matches App.authenticated_routes loc = Some e /\
             is_page e = true /\ is_login_page e = false).
Proof.
  intros (Hroot & Hpatient & Hnot).
  assert (matches (lit "/") (lit "/patient/25-0000032") = false) as N1
    by (apply Hnot; set_solver).
  assert (matches (lit "/home") (lit "/patient/25-0000032") = false) as N2
    by (apply Hnot; set_solver).
  assert (matches (lit "/chat") (lit "/patient/25-0000032") = false) as N3
    by (apply Hnot; set_solver).
  assert (matches (lit "/patient") (lit "/patient/25-0000032") = false) as N4
    by (apply Hnot; set_solver).
  unfold resolve_after_redirect. split.
  - rewrite resolve_anonymous.
    destruct (matches (lit "/") loc); [by eexists|].
    rewrite resolve_anonymous, Hroot. by eexists.
  - rewrite resolve_authenticated.
    repeat (match goal with |- context [matches ?p loc] =>
                              destruct (matches p loc) end);
      rewrite ?resolve_authenticated, ?Hroot, ?N1, ?N2, ?N3, ?N4, ?Hpatient;
      by eexists.
Qed.

(* ===================================================================== *)
(** * The further properties at sample inputs *)
(* ===================================================================== *)


(** X5 at the override [http://localhost:8000//]. *)
Lemma App_API_BASE_ignores_trailing_slashes_sample :
  lit "http://localhost:8000" <> [] /\
  App.API_BASE (Some (lit "http://localhost:8000" ++ replicate 2 slash)) None
    = App.API_BASE (Some (lit "http://localhost:8000")) None.
Proof.
  split; [discriminate|].
  apply (App_API_BASE_ignores_trailing_slashes (lit "http://localhost:8000") 2 None).
  discriminate.
Defined.

(** X7 without an override, on [cnrkddl.github.io]. *)
Lemma App_API_BASE_by_hostname_sample :
  App.API_BASE None (Some (lit "cnrkddl." ++ lit "github.io")) = App.onrender.
Proof.
  destruct (App_API_BASE_by_hostname None (or_introl eq_refl)) as (Hdeployed & _).
  apply Hdeployed.
Defined.

(** X10 after a focus with the network down and then a bare login. *)
Lemma stored_profile_fields_are_safe_sample :
  let nets := [offline; always (Resolves (mkResponse 200 (Some bare_login)))] in
  let u := Header.mkUserInfo (JStr []) (JStr []) (JStr []) JUndefined in
  final (Header.refetch_all None nets None) = Some u /\
  usable_or_empty (Header.email u) /\
  usable_or_empty (Header.nickname u) /\
  usable_or_empty (Header.profile_image u).
Proof.
  cbv zeta. split; [reflexivity|].
  apply (stored_profile_fields_are_safe None
           [offline; always (Resolves (mkResponse 200 (Some bare_login)))]).
  reflexivity.
Defined.

(** X11 at the full profile, whose nickname is [" Kim"]. *)
Lemma initial_after_whoami_sample :
  Header.initialChar
    (final (Header.fetchUserInfo None
              (always (Resolves (mkResponse 200 (Some full_login)))) None))
    = Ok (JStr (lit "K")).
Proof.
  apply (initial_after_whoami None
           (always (Resolves (mkResponse 200 (Some full_login)))) None full_login).
  - exists (mkResponse 200 (Some full_login)). repeat split; reflexivity.
  - intros _. exists (lit " Kim"). reflexivity.
Defined.

(** X12 and X13 on [/chat] with a user who has neither picture nor
    email. *)
Lemma header_shows_session_controls_iff_logged_in_sample :
  let u := Header.mkUserInfo (JStr []) (JStr (lit "Kim")) (JStr []) JNull in
  exists v,
    Header.render None offline (Some (lit "/chat")) (Some u) = Ok v /\
    Header.faq v = true /\
    (exists p, Header.profile_block v = Some p) /\
    (exists logout unlink,
       Header.actions v = Some [logout; unlink] /\
       AuthActions.label logout = AuthActions.logout_label /\
       AuthActions.label unlink = AuthActions.unlink_label).
Proof.
  cbv zeta. eexists. split; [reflexivity|].
  destruct (header_shows_session_controls_iff_logged_in None offline
              (Some (lit "/chat"))) as (_ & Hshown).
  apply (Hshown (Header.mkUserInfo (JStr []) (JStr (lit "Kim")) (JStr []) JNull)).
  reflexivity.
Defined.


(** X19 at the location [/nope]. *)
Lemma AppRouter_always_mounts_a_page_sample :
  unmatched match_segments (@AppRouter.routes unit) (lit "/nope") /\
  exists e : element unit,
    resolve match_segments AppRouter.routes (lit "/nope") = Some e /\
    is_page e = true /\ e = LoginPage None.
Proof.
  split; [reflexivity|].
  destruct (AppRouter_always_mounts_a_page match_segments (lit "/nope"))
    as (e & He & Hp & Hun).
  exists e. split; [exact He|]. split; [exact Hp|]. apply Hun. reflexivity.
Defined.

(** X20 with the segment matcher, at [/patient] and at [/nope]. *)
Lemma redirects_settle_after_one_hop_sample :
  separates_redirect_targets match_segments /\
  (exists e, resolve_after_redirect match_segments App.authenticated_routes
               (lit "/patient") = Some e /\
             is_page e = true /\ is_login_page e = false) /\
  (exists e, resolve_after_redirect match_segments App.anonymous_routes
               (lit "/nope") = Some e /\
             is_login_page e = true).
Proof.
  assert (separates_redirect_targets match_segments) as Hsep.
  { split; [reflexivity|]. split; [reflexivity|].
    intros pattern Hp. rewrite !elem_of_cons, elem_of_nil in Hp.
    destruct Hp as [->|[->|[->|[->|[]]]]]; reflexivity. }
  split; [exact Hsep|]. split.
  - apply (redirects_settle_after_one_hop match_segments (lit "/patient") Hsep).
  - apply (redirects_settle_after_one_hop match_segments (lit "/nope") Hsep).
Defined.
